(** * Advanced PID Controller: device handle, entry setup and control core

    A shallow embedding of
    [custom_components/advanced_pid_controller/__init__.py] together with
    the control core (parameter resolver, PID engine, control session)
    that the integration's design document describes.

    Conventions of the embedding.
    - The host ([hass]) is an explicit value: its state machine, its
      entity registry and its [data] dictionary are finite maps.  The
      handle's [self.hass] is a reference to that one shared host, so
      every method takes the current host as an argument.
    - A Python value that may be [None] is an [option].
    - [float(s)] is a parameter [float_of_string]: [None] stands for the
      [ValueError] that the source catches.
    - A raised exception is the [Raise] branch of [outcome].
    - The host's platform calls ([async_forward_entry_setups],
      [async_unload_platforms]) are kept to the record of which platforms
      an entry has; what the platforms do to entities and their states is
      not modelled. *)

From Stdlib Require Import QArith Lqa DecimalString Ascii.
From stdpp Require Import gmap strings.

Open Scope string_scope.

(** ** Host objects *)

(** A state object of the host's state machine; the integration reads
    only its [state] string. *)
Record State := mkState { state : string }.

Inductive Platform := SENSOR | NUMBER | SWITCH.

Definition PLATFORMS : list Platform := [SENSOR; NUMBER; SWITCH].

Record ConfigEntry := mkConfigEntry {
  entry_id : string;
  data : gmap string string;
  options : gmap string string
}.

Inductive exn :=
| ConfigEntryNotReady (msg : string)
| ZeroDivisionError
| AttributeError.

Inductive outcome (A : Type) :=
| Ok (a : A)
| Raise (e : exn).
Arguments Ok {A} a.
Arguments Raise {A} e.

(** [state.state not in ("unknown", "unavailable")] *)
Definition usable (st : State) : bool :=
  negb (String.eqb (state st) "unknown" || String.eqb (state st) "unavailable").

Section Integration.

(** Constants of the integration's [const] module. *)
Variables DOMAIN CONF_NAME CONF_SENSOR_ENTITY_ID : string.

(** The number type of the host language and [float(...)] on strings. *)
Context {float : Type}.
Variable float_of_string : string -> option float.

(** (P, I, D) *)
Definition contributions : Type := option float * option float * option float.

Record PIDDeviceHandle := mkHandle {
  entry : ConfigEntry;
  name : option string;
  sensor_entity_id : option string;
  last_contributions : contributions
}.

Record HomeAssistant := mkHass {
  states : gmap string State;
  registry : gmap (string * string * string) string;
  hass_data : gmap string (gmap string PIDDeviceHandle);
  forwarded : gmap string (list Platform)
}.

(** [hass.states.get(entity_id)] for an id that is a string. *)
Definition states_get (hass : HomeAssistant) (entity_id : string)
  : option State :=
  states hass !! entity_id.

(** [hass.states.get(entity_id)] for an id that may be [None]: the host
    calls a string method on the id it is given, so [None] raises
    [AttributeError]. *)
Definition states_get_opt (hass : HomeAssistant) (entity_id : option string)
  : outcome (option State) :=
  match entity_id with
  | Some eid => Ok (states_get hass eid)
  | None => Raise AttributeError
  end.

(** [reg.async_get_entity_id(platform, domain, unique_id)] *)
Definition async_get_entity_id (hass : HomeAssistant)
    (platform domain unique_id : string) : option string :=
  registry hass !! (platform, domain, unique_id).

(** [entry.options.get(CONF_SENSOR_ENTITY_ID,
                       entry.data.get(CONF_SENSOR_ENTITY_ID))] *)
Definition configured_sensor (e : ConfigEntry) : option string :=
  match options e !! CONF_SENSOR_ENTITY_ID with
  | Some v => Some v
  | None => data e !! CONF_SENSOR_ENTITY_ID
  end.

(** ** [PIDDeviceHandle] *)

Definition PIDDeviceHandle_init (e : ConfigEntry) : PIDDeviceHandle :=
  {| entry := e;
     name := data e !! CONF_NAME;
     sensor_entity_id := configured_sensor e;
     last_contributions := (None, None, None) |}.

Definition _get_entity_id (hass : HomeAssistant) (self : PIDDeviceHandle)
    (platform key : string) : option string :=
  let desired := entry_id (entry self) +:+ "_" +:+ key in
  async_get_entity_id hass platform DOMAIN desired.

(** The test [state and state.state not in ("unknown", "unavailable")]
    of the three readers: a state object is truthy, so the test passes
    for a state that is present and neither unknown nor unavailable. *)
Definition live_state (o : option State) : option State :=
  match o with
  | Some st => if usable st then Some st else None
  | None => None
  end.

(** [if not entity_id] is taken for [None] and for the empty string;
    past it the id is a string. *)
Definition get_number (hass : HomeAssistant) (self : PIDDeviceHandle)
    (key : string) : option float :=
  match _get_entity_id hass self "number" key with
  | None => None
  | Some entity_id =>
      if String.eqb entity_id "" then None
      else
        match live_state (states_get hass entity_id) with
        | Some st =>
            match float_of_string (state st) with
            | Some v => Some v
            | None => None
            end
        | None => None
        end
  end.

Definition get_switch (hass : HomeAssistant) (self : PIDDeviceHandle)
    (key : string) : bool :=
  match _get_entity_id hass self "switch" key with
  | None => true
  | Some entity_id =>
      if String.eqb entity_id "" then true
      else
        match live_state (states_get hass entity_id) with
        | Some st => String.eqb (state st) "on"
        | None => true
        end
  end.

(** The sensor id of the handle may be [None]; the lookup then raises
    and nothing in the method catches it. *)
Definition get_input_sensor_value (hass : HomeAssistant)
    (self : PIDDeviceHandle) : outcome (option float) :=
  match states_get_opt hass (sensor_entity_id self) with
  | Raise err => Raise err
  | Ok found =>
      match live_state found with
      | Some st =>
          match float_of_string (state st) with
          | Some v => Ok (Some v)
          | None => Ok None
          end
      | None => Ok None
      end
  end.

(** ** Entry setup *)

(** [hass.data.setdefault(DOMAIN, {})[entry.entry_id] = handle] *)
Definition store_handle (hass : HomeAssistant) (e : ConfigEntry)
    (handle : PIDDeviceHandle) : HomeAssistant :=
  let per_domain := default ∅ (hass_data hass !! DOMAIN) in
  {| states := states hass;
     registry := registry hass;
     hass_data := <[DOMAIN := <[entry_id e := handle]> per_domain]> (hass_data hass);
     forwarded := forwarded hass |}.

(** [hass.config_entries.async_forward_entry_setups(entry, platforms)]:
    the host records which platforms it set up for the entry.  The
    entities that the platforms then create, and the states they write,
    are not part of this model. *)
Definition async_forward_entry_setups (hass : HomeAssistant)
    (e : ConfigEntry) (platforms : list Platform) : HomeAssistant :=
  {| states := states hass;
     registry := registry hass;
     hass_data := hass_data hass;
     forwarded := <[entry_id e := platforms]> (forwarded hass) |}.

(** The text of [f"Sensor {sensor_entity_id} not ready"]. *)
Definition not_ready_message (sensor : option string) : string :=
  "Sensor " +:+ default "None" sensor +:+ " not ready".

(** The host after the call, and what the call returned or raised.  The
    lookup of the sensor comes first, so an error it raises leaves the
    host as it was. *)
Definition async_setup_entry (hass : HomeAssistant) (e : ConfigEntry)
  : HomeAssistant * outcome bool :=
  let sensor := configured_sensor e in
  match states_get_opt hass sensor with
  | Raise err => (hass, Raise err)
  | Ok None => (hass, Raise (ConfigEntryNotReady (not_ready_message sensor)))
  | Ok (Some st) =>
      if negb (usable st)
      then (hass, Raise (ConfigEntryNotReady (not_ready_message sensor)))
      else
        let handle := PIDDeviceHandle_init e in
        let hass1 := store_handle hass e handle in
        let hass2 := async_forward_entry_setups hass1 e PLATFORMS in
        (hass2, Ok true)
  end.

(** The handle the host holds for an entry, [hass.data[DOMAIN][entry_id]]. *)
Definition handle_of (hass : HomeAssistant) (e : ConfigEntry)
  : option PIDDeviceHandle :=
  match hass_data hass !! DOMAIN with
  | Some per_domain => per_domain !! entry_id e
  | None => None
  end.

(** The state of the source behind a parameter key: the state of the
    entity that the registry names for the key, when it names one. *)
Definition source (hass : HomeAssistant) (self : PIDDeviceHandle)
    (platform key : string) : option State :=
  match _get_entity_id hass self platform key with
  | None => None
  | Some entity_id =>
      if String.eqb entity_id "" then None else states_get hass entity_id
  end.

End Integration.

(** The state is one of the two placeholders of an entity without a
    value. *)
Definition unavailable (st : State) : Prop :=
  state st = "unknown" \/ state st = "unavailable".

(** ** Entry unload *)

(** The error of a dictionary operation on a key that is not there. *)
Inductive KeyError := KeyError_of (key : string).

(** [key in d] *)
Definition contains {V : Type} (d : gmap string V) (key : string) : bool :=
  match d !! key with
  | Some _ => true
  | None => false
  end.

(** [d[key]] *)
Definition getitem {V : Type} (d : gmap string V) (key : string)
  : KeyError + V :=
  match d !! key with
  | Some v => inr v
  | None => inl (KeyError_of key)
  end.

(** [d.pop(key)]: the value removed and the dictionary without the key. *)
Definition pop {V : Type} (d : gmap string V) (key : string)
  : KeyError + (V * gmap string V) :=
  match d !! key with
  | Some v => inr (v, delete key d)
  | None => inl (KeyError_of key)
  end.

(** Sequencing of steps that may end in a [KeyError]. *)
Definition and_then {A B : Type} (x : KeyError + A) (k : A -> KeyError + B)
  : KeyError + B :=
  match x with
  | inl err => inl err
  | inr a => k a
  end.

(** No character of the string is an underscore. *)
Fixpoint no_underscore (s : string) : bool :=
  match s with
  | EmptyString => true
  | String c rest => negb (Ascii.eqb c "_"%char) && no_underscore rest
  end.

Section Teardown.

Variable DOMAIN : string.
Context {float : Type}.

Local Abbreviation Host := (@HomeAssistant float).

(** The host with another [data] dictionary. *)
Definition with_data (hass : Host)
    (d : gmap string (gmap string (@PIDDeviceHandle float))) : Host :=
  {| states := states hass;
     registry := registry hass;
     hass_data := d;
     forwarded := forwarded hass |}.

(** [hass.config_entries.async_unload_platforms(entry, platforms)]:
    [unloaded] is the host's answer, whether every platform unloaded;
    when they did the host forgets the platforms of the entry.  What
    unloading does to the entities of the platforms, and which platforms
    a refused unload has already taken down, is not part of this model. *)
Definition async_unload_platforms (hass : Host) (e : ConfigEntry)
    (platforms : list Platform) (unloaded : bool) : Host * bool :=
  (if unloaded
   then {| states := states hass;
           registry := registry hass;
           hass_data := hass_data hass;
           forwarded := delete (entry_id e) (forwarded hass) |}
   else hass,
   unloaded).

(** [DOMAIN in hass.data and entry.entry_id in hass.data[DOMAIN]] *)
Definition entry_loaded (hass : Host) (e : ConfigEntry) : KeyError + bool :=
  if contains (hass_data hass) DOMAIN
  then and_then (getitem (hass_data hass) DOMAIN)
         (fun per_domain => inr (contains per_domain (entry_id e)))
  else inr false.

(** [hass.data[DOMAIN].pop(entry.entry_id)]; the inner dictionary is
    changed in place. *)
Definition pop_handle (hass : Host) (e : ConfigEntry) : KeyError + Host :=
  and_then (getitem (hass_data hass) DOMAIN) (fun per_domain =>
  and_then (pop per_domain (entry_id e)) (fun '(_, rest) =>
  inr (with_data hass (<[DOMAIN := rest]> (hass_data hass))))).

(** The host after the call and the value returned, or the [KeyError]
    that escaped. *)
Definition async_unload_entry (hass : Host) (e : ConfigEntry)
    (unloaded : bool) : KeyError + (Host * bool) :=
  and_then (entry_loaded hass e) (fun loaded =>
  and_then (if loaded then pop_handle hass e else inr hass) (fun hass1 =>
  inr (async_unload_platforms hass1 e PLATFORMS unloaded))).

End Teardown.

(** ** Control core

    The integration's [__init__] module holds the handle and the host
    wiring; the controller arithmetic is described by the design
    document.  Numbers of the core are exact rationals: every value is
    finite, and rounding is outside the model. *)

Open Scope Q_scope.

(** [x < y] *)
Definition Qltb (x y : Q) : bool := negb (Qle_bool y x).

(** Modelled from the spec: the TuningParameters of the data model
    (section 3); the core that resolves and uses them is not part of the
    [__init__] module.  A limit is [None] when that side is unbounded. *)
Record TuningParameters := mkTuning {
  proportional_gain : Q;
  integral_gain : Q;
  derivative_gain : Q;
  setpoint : Q;
  output_min : option Q;
  output_max : option Q;
  proportional_enabled : bool;
  integral_enabled : bool;
  derivative_enabled : bool
}.

(** Modelled from the spec: the ControllerState of the data model
    (section 3), owned by a session that is not part of the [__init__]
    module. *)
Record ControllerState := mkState_ctl {
  integral_accumulator : Q;
  previous_measurement : option Q;
  last_tick_time : option Q
}.

(** Modelled from the spec: the invariant [output_min <= output_max] of
    the data model (section 3), which the unseen Resolver maintains; a
    limit that is [None] is no bound on that side. *)
Definition limits_ordered (lo hi : option Q) : Prop :=
  match lo, hi with
  | Some l, Some h => l <= h
  | _, _ => True
  end.

(** Modelled from the spec: [x] lies in the closed interval
    [[output_min, output_max]] of section 8, for the limits of the
    unseen Engine. *)
Definition within (lo hi : option Q) (x : Q) : Prop :=
  match lo with Some l => l <= x | None => True end /\
  match hi with Some h => x <= h | None => True end.

(** Modelled from the spec: the test "exceeds [output_max]" of the
    unseen Engine (section 4.3 step 4); the result is the upper limit
    when [x] exceeds it. *)
Definition over (hi : option Q) (x : Q) : option Q :=
  match hi with
  | Some h => if Qltb h x then Some h else None
  | None => None
  end.

(** Modelled from the spec: the test "falls below [output_min]" of the
    unseen Engine (section 4.3 step 4); the result is the lower limit
    when [x] falls below it. *)
Definition under (lo : option Q) (x : Q) : option Q :=
  match lo with
  | Some l => if Qltb x l then Some l else None
  | None => None
  end.

(** Modelled from the spec: the Engine's [clamp(x, output_min,
    output_max)] (section 4.3 step 6); the Engine is not part of the
    [__init__] module. *)
Definition clamp (x : Q) (lo hi : option Q) : Q :=
  match over hi x with
  | Some h => h
  | None =>
      match under lo x with
      | Some l => l
      | None => x
      end
  end.

(** Modelled from the spec: back-calculation of the accumulator (section
    4.3 step 4).  [sum] is the raw unclamped sum and [rest] the part of
    it that does not come from the accumulator; when the sum is past a
    bound the accumulator becomes the value for which the sum is that
    bound. *)
Definition anti_windup (acc sum rest : Q) (lo hi : option Q) : Q :=
  match over hi sum with
  | Some h => h - rest
  | None =>
      match under lo sum with
      | Some l => l - rest
      | None => acc
      end
  end.

(** Modelled from the spec: what a term of the unseen Engine adds to
    the sum (section 4.3 steps 2 and 5): a term without a contribution
    adds 0. *)
Definition term_value (c : option Q) : Q := default 0 c.

(** Division as the host language has it: a zero divisor raises. *)
Definition divide (x y : Q) : outcome Q :=
  if Qeq_bool y 0 then Raise ZeroDivisionError else Ok (x / y).

(** Modelled from the spec: what a step of the unseen Engine produces
    (section 4.3): output, contributions and new state, or nothing on a
    no-op step. *)
Inductive TickResult :=
| Computed (output : Q) (c : @contributions Q) (s : ControllerState)
| NoOp.

(** Modelled from the spec: the PID Engine (section 4.3), a function of
    (measurement, tuning, state, elapsed_time); [now] is the tick's
    timestamp, recorded as [last_tick_time].  The steps are numbered as
    in the document.  A disabled integral term holds the accumulator, so
    back-calculation applies to an enabled term only. *)
Definition pid_step (now measurement : Q) (tuning : TuningParameters)
    (st : ControllerState) (elapsed_time : Q) : outcome TickResult :=
  (* 7 *)
  if Qle_bool elapsed_time 0 then Ok NoOp
  else
    (* 1 *)
    let error := setpoint tuning - measurement in
    (* 2 *)
    let p :=
      if proportional_enabled tuning
      then Some (proportional_gain tuning * error) else None in
    (* 3 *)
    let acc :=
      if integral_enabled tuning
      then integral_accumulator st + integral_gain tuning * error * elapsed_time
      else integral_accumulator st in
    let i := if integral_enabled tuning then Some acc else None in
    (* 5 *)
    let d :=
      if derivative_enabled tuning then
        match previous_measurement st with
        | Some prev =>
            match divide (- derivative_gain tuning * (measurement - prev))
                         elapsed_time with
            | Ok q => Ok (Some q)
            | Raise e => Raise e
            end
        | None => Ok None
        end
      else Ok None in
    match d with
    | Raise e => Raise e
    | Ok d =>
        let sum := term_value p + term_value i + term_value d in
        (* 4 *)
        let acc' :=
          if integral_enabled tuning
          then anti_windup acc sum (term_value p + term_value d)
                 (output_min tuning) (output_max tuning)
          else acc in
        (* 6 *)
        let output := clamp sum (output_min tuning) (output_max tuning) in
        Ok (Computed output (p, i, d)
              {| integral_accumulator := acc';
                 previous_measurement := Some measurement;
                 last_tick_time := Some now |})
    end.

(** Modelled from the spec: the Resolver's ordering of the two limits
    (section 3): a pair that violates [output_min <= output_max] is
    swapped. *)
Definition order_limits (lo hi : option Q) : option Q * option Q :=
  match lo, hi with
  | Some l, Some h => if Qltb h l then (Some h, Some l) else (lo, hi)
  | _, _ => (lo, hi)
  end.

(** Modelled from the spec: the per-parameter keys of one session
    (section 6), which the unseen Resolver looks up, and the setpoint it
    uses when none is published. *)
Record ParameterKeys := mkKeys {
  key_proportional_gain : string;
  key_integral_gain : string;
  key_derivative_gain : string;
  key_setpoint : string;
  key_output_min : string;
  key_output_max : string;
  key_proportional_enabled : string;
  key_integral_enabled : string;
  key_derivative_enabled : string;
  default_setpoint : Q
}.

Section Core.

Variable DOMAIN : string.
Variable float_of_string : string -> option Q.
Variable keys : ParameterKeys.

Local Abbreviation Hass := (@HomeAssistant Q).
Local Abbreviation Handle := (@PIDDeviceHandle Q).

(** Modelled from the spec: the Resolver's [get_number(key, default)]
    (section 4.1); the module's [get_number] takes the key only and
    this is its value with the default put in place of [None]. *)
Definition get_number_or (hass : Hass) (self : Handle) (key : string)
    (fallback : Q) : Q :=
  default fallback (get_number DOMAIN float_of_string hass self key).

(** Modelled from the spec: the two limits as the unseen Resolver reads
    them, before they are ordered. *)
Definition raw_limits (hass : Hass) (self : Handle) : option Q * option Q :=
  (get_number DOMAIN float_of_string hass self (key_output_min keys),
   get_number DOMAIN float_of_string hass self (key_output_max keys)).

(** Modelled from the spec: resolution of one tick's TuningParameters
    (sections 3 and 4.1): gains default to 0, enable flags to true, a
    limit that is not published is unbounded. *)
Definition resolve_tuning (hass : Hass) (self : Handle) : TuningParameters :=
  let '(lo, hi) := raw_limits hass self in
  let '(lo, hi) := order_limits lo hi in
  {| proportional_gain := get_number_or hass self (key_proportional_gain keys) 0;
     integral_gain := get_number_or hass self (key_integral_gain keys) 0;
     derivative_gain := get_number_or hass self (key_derivative_gain keys) 0;
     setpoint := get_number_or hass self (key_setpoint keys) (default_setpoint keys);
     output_min := lo;
     output_max := hi;
     proportional_enabled := get_switch DOMAIN hass self (key_proportional_enabled keys);
     integral_enabled := get_switch DOMAIN hass self (key_integral_enabled keys);
     derivative_enabled := get_switch DOMAIN hass self (key_derivative_enabled keys) |}.

(** Modelled from the spec: the Control Session (section 4.4), which is
    not part of the [__init__] module: the handle with its last
    contributions, the controller state and the last output. *)
Record ControlSession := mkSession {
  handle : Handle;
  controller : ControllerState;
  last_output : option Q
}.

(** Modelled from the spec: the controller state of a new or reset
    session (section 3): zero and empty. *)
Definition fresh_state : ControllerState :=
  {| integral_accumulator := 0;
     previous_measurement := None;
     last_tick_time := None |}.

(** Modelled from the spec: creation of the unseen Control Session
    around a handle. *)
Definition new_session (h : Handle) : ControlSession :=
  {| handle := h; controller := fresh_state; last_output := None |}.

(** Modelled from the spec: the unseen session overwrites the handle's
    last contributions wholesale (section 3). *)
Definition with_contributions (h : Handle) (c : @contributions Q) : Handle :=
  {| entry := entry h;
     name := name h;
     sensor_entity_id := sensor_entity_id h;
     last_contributions := c |}.

(** Modelled from the spec: the read of the Sensor Gate (section 4.2),
    which is not part of the [__init__] module, on top of the module's
    reader: the reading is valid when the reader returns a number.  The
    Gate has no failure value (section 7), so a reader that returns
    nothing, or that fails because no source is named, gives an invalid
    reading. *)
Definition read (hass : Hass) (self : Handle) : option Q :=
  match get_input_sensor_value float_of_string hass self with
  | Ok (Some value) => Some value
  | Ok None => None
  | Raise _ => None
  end.

(** Modelled from the spec: one tick of the Control Session (section
    4.4): resolve tuning, read the sensor, skip on an invalid reading,
    else run the Engine and store its state and contributions.  The
    result is the session after the tick and the output handed to the
    host. *)
Definition tick (hass : Hass) (s : ControlSession) (now elapsed_time : Q)
  : ControlSession * outcome (option Q) :=
  let tuning := resolve_tuning hass (handle s) in
  match read hass (handle s) with
  | None => (s, Ok (last_output s))
  | Some measurement =>
      match pid_step now measurement tuning (controller s) elapsed_time with
      | Raise e => (s, Raise e)
      | Ok NoOp => (s, Ok (last_output s))
      | Ok (Computed output c st') =>
          ({| handle := with_contributions (handle s) c;
              controller := st';
              last_output := Some output |},
           Ok (Some output))
      end
  end.

End Core.

(** Modelled from the spec: the controller state that the unseen session
    keeps after an Engine result (section 4.4): the new state of a
    computed step, the old one otherwise. *)
Definition state_after (r : outcome TickResult) (st : ControllerState)
  : ControllerState :=
  match r with
  | Ok (Computed _ _ st') => st'
  | _ => st
  end.

(** ** Concrete data for the examples *)

Module Sample.

(** Integer literals only; on these [float] of the host language gives
    the same number. *)
Definition float_of_string (s : string) : option Q :=
  match NilZero.int_of_string s with
  | Some i => Some (inject_Z (Z.of_int i))
  | None => None
  end.

Definition DOMAIN : string := "advanced_pid_controller".
Definition CONF_NAME : string := "name".
Definition CONF_SENSOR_ENTITY_ID : string := "sensor_entity_id".

Definition keys : ParameterKeys :=
  {| key_proportional_gain := "kp";
     key_integral_gain := "ki";
     key_derivative_gain := "kd";
     key_setpoint := "setpoint";
     key_output_min := "output_min";
     key_output_max := "output_max";
     key_proportional_enabled := "p_enabled";
     key_integral_enabled := "i_enabled";
     key_derivative_enabled := "d_enabled";
     default_setpoint := 0 |}.

Definition boiler : ConfigEntry :=
  {| entry_id := "e1";
     data := {[ CONF_NAME := "Boiler";
                CONF_SENSOR_ENTITY_ID := "sensor.temp" ]};
     options := ∅ |}.

Definition boiler_handle : @PIDDeviceHandle Q :=
  PIDDeviceHandle_init CONF_NAME CONF_SENSOR_ENTITY_ID boiler.

(** A host that knows nothing: no states, no registered entities. *)
Definition bare : @HomeAssistant Q :=
  {| states := ∅; registry := ∅; hass_data := ∅; forwarded := ∅ |}.


(** A host on which the sensor reads 65, the setpoint is 70, the
    proportional gain is 2, the limits are published the wrong way
    round (100 and 0), the integral switch is off and the derivative
    switch has no value. *)
Definition running : @HomeAssistant Q :=
  {| states :=
       {[ "sensor.temp" := mkState "65";
          "number.kp" := mkState "2";
          "number.setpoint" := mkState "70";
          "number.output_min" := mkState "100";
          "number.output_max" := mkState "0";
          "number.ki" := mkState "high";
          "switch.i_enabled" := mkState "off";
          "switch.d_enabled" := mkState "unavailable" ]};
     registry :=
       {[ ("number", DOMAIN, "e1_kp") := "number.kp";
          ("number", DOMAIN, "e1_setpoint") := "number.setpoint";
          ("number", DOMAIN, "e1_output_min") := "number.output_min";
          ("number", DOMAIN, "e1_output_max") := "number.output_max";
          ("number", DOMAIN, "e1_ki") := "number.ki";
          ("switch", DOMAIN, "e1_i_enabled") := "switch.i_enabled";
          ("switch", DOMAIN, "e1_d_enabled") := "switch.d_enabled" ]};
     hass_data := ∅;
     forwarded := ∅ |}.

(** The same host once the sensor has lost its value. *)
Definition sensor_lost : @HomeAssistant Q :=
  {| states := <["sensor.temp" := mkState "unavailable"]> (states running);
     registry := registry running;
     hass_data := ∅;
     forwarded := ∅ |}.

(** Setpoint 70, proportional gain 2, limits 0 and 100, all terms on. *)
Definition tuning : TuningParameters :=
  {| proportional_gain := 2;
     integral_gain := 0;
     derivative_gain := 0;
     setpoint := 70;
     output_min := Some 0;
     output_max := Some 100;
     proportional_enabled := true;
     integral_enabled := true;
     derivative_enabled := true |}.

(** Integral gain 1 alone, setpoint 70, no limits. *)
Definition integrating : TuningParameters :=
  {| proportional_gain := 0;
     integral_gain := 1;
     derivative_gain := 0;
     setpoint := 70;
     output_min := None;
     output_max := None;
     proportional_enabled := true;
     integral_enabled := true;
     derivative_enabled := true |}.

(** The controller state after [n] steps of one second each at a
    measurement of 65. *)
Fixpoint after_steps (n : nat) : ControllerState :=
  match n with
  | O => fresh_state
  | S k =>
      state_after (pid_step (inject_Z (Z.of_nat n)) 65 integrating
                     (after_steps k) 1)
                  (after_steps k)
  end.

(** An entry that names no sensor. *)
Definition unnamed : ConfigEntry :=
  {| entry_id := "e0";
     data := {[ CONF_NAME := "Nameless" ]};
     options := ∅ |}.

(** A second entry; its options name the sensor, its data another one. *)
Definition chiller : ConfigEntry :=
  {| entry_id := "e2";
     data := {[ CONF_NAME := "Chiller";
                CONF_SENSOR_ENTITY_ID := "sensor.old" ]};
     options := {[ CONF_SENSOR_ENTITY_ID := "sensor.temp" ]} |}.

(** The running host after the boiler entry has been set up. *)
Definition loaded : @HomeAssistant Q :=
  fst (async_setup_entry DOMAIN CONF_NAME CONF_SENSOR_ENTITY_ID running boiler).


(** The running host once a number entity is registered under [slot]. *)
Definition registered (slot : string * string * string) (eid : string)
  : @HomeAssistant Q :=
  {| states := states running;
     registry := <[slot := eid]> (registry running);
     hass_data := hass_data running;
     forwarded := forwarded running |}.


End Sample.

(** * Properties *)

(** ** The readers of the device handle *)

Lemma usable_false_iff (st : State) : usable st = false <-> unavailable st.
Proof.
  unfold usable, unavailable.
  rewrite negb_false_iff, orb_true_iff, !String.eqb_eq. reflexivity.
Qed.

Lemma usable_true_iff (st : State) : usable st = true <-> ~ unavailable st.
Proof.
  rewrite <- usable_false_iff. destruct (usable st); split; intros; congruence.
Qed.

Lemma live_state_Some (o : option State) (st : State) :
  live_state o = Some st <-> o = Some st /\ ~ unavailable st.
Proof.
  unfold live_state. destruct o as [st0|].
  - destruct (usable st0) eqn:E.
    + apply usable_true_iff in E. split.
      * intros [= ->]. auto.
      * intros [[= ->] _]. reflexivity.
    + apply usable_false_iff in E. split; [discriminate|].
      intros [[= ->] H]. contradiction.
  - split; [discriminate | intros [? _]; discriminate].
Qed.

Lemma live_state_None (o : option State) :
  live_state o = None <-> o = None \/ exists st, o = Some st /\ unavailable st.
Proof.
  unfold live_state. destruct o as [st0|].
  - destruct (usable st0) eqn:E.
    + apply usable_true_iff in E. split; [discriminate|].
      intros [|[st [[= ->] H]]]; [discriminate | contradiction].
    + apply usable_false_iff in E. split; eauto.
  - split; auto.
Qed.

Section Readers.

Variable DOMAIN : string.
Context {float : Type}.
Variable float_of_string : string -> option float.
Variable hass : @HomeAssistant float.
Variable self : @PIDDeviceHandle float.

(** Every reader of a parameter goes through the same lookup. *)
Lemma get_number_source (key : string) :
  get_number DOMAIN float_of_string hass self key =
  match live_state (source DOMAIN hass self "number" key) with
  | Some st => float_of_string (state st)
  | None => None
  end.
Proof.
  unfold get_number, source.
  destruct (_get_entity_id _ _ _ _ _) as [entity_id|]; [|reflexivity].
  destruct (String.eqb entity_id ""); [reflexivity|].
  destruct (live_state _); [|reflexivity].
  destruct (float_of_string _); reflexivity.
Qed.

Lemma get_switch_source (key : string) :
  get_switch DOMAIN hass self key =
  match live_state (source DOMAIN hass self "switch" key) with
  | Some st => String.eqb (state st) "on"
  | None => true
  end.
Proof.
  unfold get_switch, source.
  destruct (_get_entity_id _ _ _ _ _) as [entity_id|]; [|reflexivity].
  destruct (String.eqb entity_id ""); reflexivity.
Qed.

(** C2: [get_switch] answers true when the source of the key is absent
    or its state is unknown or unavailable, and otherwise answers
    exactly whether the state is "on". *)
Theorem get_switch_fail_open (key : string) :
  match source DOMAIN hass self "switch" key with
  | None => get_switch DOMAIN hass self key = true
  | Some st =>
      (unavailable st -> get_switch DOMAIN hass self key = true) /\
      (~ unavailable st ->
       (get_switch DOMAIN hass self key = true <-> state st = "on"))
  end.
Proof.
  rewrite get_switch_source.
  destruct (source _ _ _ _ _) as [st|] eqn:Hsrc; simpl; [|reflexivity].
  split; intros H.
  - apply usable_false_iff in H. rewrite H. reflexivity.
  - apply usable_true_iff in H. rewrite H. apply String.eqb_eq.
Qed.

(** C3 (amended): [get_number] takes the key only.  It returns the
    number that the state of the source parses to, and [None], without
    raising, when the source is absent, when its state is unknown or
    unavailable, and when the state does not parse. *)
Theorem get_number_or_none (key : string) :
  match source DOMAIN hass self "number" key with
  | None => get_number DOMAIN float_of_string hass self key = None
  | Some st =>
      (unavailable st ->
       get_number DOMAIN float_of_string hass self key = None) /\
      (~ unavailable st ->
       get_number DOMAIN float_of_string hass self key
       = float_of_string (state st))
  end.
Proof.
  rewrite get_number_source.
  destruct (source _ _ _ _ _) as [st|] eqn:Hsrc; simpl; [|reflexivity].
  split; intros H.
  - apply usable_false_iff in H. rewrite H. reflexivity.
  - apply usable_true_iff in H. rewrite H. reflexivity.
Qed.

(** The reader on a handle that names a sensor. *)
Lemma get_input_sensor_value_named (sensor : string) :
  sensor_entity_id self = Some sensor ->
  get_input_sensor_value float_of_string hass self =
  match live_state (states_get hass sensor) with
  | Some st => Ok (float_of_string (state st))
  | None => Ok None
  end.
Proof.
  intros Hs. unfold get_input_sensor_value. rewrite Hs. simpl.
  destruct (live_state _); [|reflexivity].
  destruct (float_of_string _); reflexivity.
Qed.

(** The reader on a handle that names no sensor: the lookup raises. *)
Lemma get_input_sensor_value_unnamed :
  sensor_entity_id self = None ->
  get_input_sensor_value float_of_string hass self = Raise AttributeError.
Proof.
  intros Hs. unfold get_input_sensor_value. rewrite Hs. reflexivity.
Qed.

(** C4: reading the sensor gives no value exactly when the configured
    source is absent, its state is unknown or unavailable, or the state
    does not parse as a number; in every other case of a configured
    source it gives the number the state parses to, and it never raises
    on a configured source. *)
Theorem get_input_sensor_value_valid_iff :
  let reading := get_input_sensor_value float_of_string hass self in
  (reading = Ok None <->
   exists sensor,
     sensor_entity_id self = Some sensor /\
     (states_get hass sensor = None \/
      exists st, states_get hass sensor = Some st /\
                 (unavailable st \/ float_of_string (state st) = None))) /\
  (forall v, reading = Ok (Some v) <->
   exists sensor st,
     sensor_entity_id self = Some sensor /\
     states_get hass sensor = Some st /\ ~ unavailable st /\
     float_of_string (state st) = Some v) /\
  (forall sensor, sensor_entity_id self = Some sensor ->
   forall err, reading <> Raise err).
Proof.
  cbv zeta.
  destruct (sensor_entity_id self) as [sensor|] eqn:Hid.
  - rewrite (get_input_sensor_value_named sensor Hid).
    destruct (live_state _) as [st|] eqn:Hl.
    + apply live_state_Some in Hl as [Hs Hu]. split; [|split].
      * destruct (float_of_string (state st)) eqn:Hf; split.
        -- discriminate.
        -- intros [sensor' [[= <-] [Hn|[st' [Hs' [Hu'|Hf']]]]]];
             [congruence | | ]; rewrite Hs in Hs'; injection Hs' as <-;
             [contradiction | congruence].
        -- intros _. exists sensor. split; [reflexivity|]. right. eauto.
        -- reflexivity.
      * intros v. destruct (float_of_string (state st)) eqn:Hf; split.
        -- intros [= ->]. eauto 6.
        -- intros [sensor' [st' [[= <-] [Hs' [_ Hf']]]]].
           rewrite Hs in Hs'. injection Hs' as <-. congruence.
        -- discriminate.
        -- intros [sensor' [st' [[= <-] [Hs' [_ Hf']]]]].
           rewrite Hs in Hs'. injection Hs' as <-. congruence.
      * intros sensor' _ err. discriminate.
    + apply live_state_None in Hl. split; [|split].
      * split; [|reflexivity]. intros _. exists sensor.
        split; [reflexivity|].
        destruct Hl as [Hn|[st [Hs Hu]]]; [left; exact Hn | right; eauto].
      * intros v. split; [discriminate|].
        intros [sensor' [st [[= <-] [Hs [Hu _]]]]].
        destruct Hl as [Hn|[st' [Hs' Hu']]]; [congruence|].
        rewrite Hs in Hs'. injection Hs' as <-. contradiction.
      * intros sensor' _ err. discriminate.
  - rewrite (get_input_sensor_value_unnamed Hid). split; [|split].
    + split; [discriminate|]. intros [sensor [Hs _]]. discriminate.
    + intros v. split; [discriminate|]. intros [sensor [st [Hs _]]]. discriminate.
    + intros sensor Hs. discriminate.
Qed.

End Readers.

(** ** Entry setup *)

Section Setup.

Variables DOMAIN CONF_NAME CONF_SENSOR_ENTITY_ID : string.
Context {float : Type}.
Variable hass : @HomeAssistant float.
Variable e : ConfigEntry.

Local Abbreviation setup :=
  (async_setup_entry DOMAIN CONF_NAME CONF_SENSOR_ENTITY_ID hass e).
Local Abbreviation configured := (configured_sensor CONF_SENSOR_ENTITY_ID e).

(** Storing a handle makes it the one the host holds for the entry. *)
Lemma handle_of_store_handle (h : @PIDDeviceHandle float) :
  handle_of DOMAIN (store_handle DOMAIN hass e h) e = Some h.
Proof.
  unfold handle_of, store_handle. simpl.
  rewrite lookup_insert_eq. apply lookup_insert_eq.
Qed.

Lemma handle_of_forward (h0 : @HomeAssistant float) (ps : list Platform) :
  handle_of DOMAIN (async_forward_entry_setups h0 e ps) e = handle_of DOMAIN h0 e.
Proof. reflexivity. Qed.

(** The three ways setup can end: the lookup fails on an entry that
    names no sensor, the not-ready error is raised, or setup returns
    true.  In the first two the host is left as it was. *)
Lemma setup_cases :
  (configured = None /\ setup = (hass, Raise AttributeError)) \/
  (exists sensor msg,
     configured = Some sensor /\
     setup = (hass, Raise (ConfigEntryNotReady msg)) /\
     (states_get hass sensor = None \/
      exists st, states_get hass sensor = Some st /\ unavailable st)) \/
  (exists sensor st,
     configured = Some sensor /\
     states_get hass sensor = Some st /\ ~ unavailable st /\
     snd setup = Ok true /\
     handle_of DOMAIN (fst setup) e
     = Some (PIDDeviceHandle_init CONF_NAME CONF_SENSOR_ENTITY_ID e)).
Proof.
  unfold async_setup_entry.
  destruct configured as [sensor|] eqn:Hc; simpl.
  - right. destruct (states_get hass sensor) as [st|] eqn:Hs.
    + destruct (usable st) eqn:Hu; simpl.
      * right. exists sensor, st. apply usable_true_iff in Hu.
        repeat split; auto.
        rewrite handle_of_forward. apply handle_of_store_handle.
      * left. apply usable_false_iff in Hu. eauto 8.
    + left. eauto 8.
  - left. auto.
Qed.

(** C9: setup raises the not-ready error, and leaves the host without a
    new handle, exactly when the configured sensor has no state or its
    state is unknown or unavailable; setup raises nothing exactly when
    the configured sensor has a state that is neither, a state that
    does not parse as a number included, and then it returns true and
    the host holds the new handle.  Whatever setup raises, the host is
    left as it was. *)
Theorem setup_blocks_iff_sensor_missing :
  ((exists msg, setup = (hass, Raise (ConfigEntryNotReady msg))) <->
   (exists sensor,
      configured = Some sensor /\
      (states_get hass sensor = None \/
       exists st, states_get hass sensor = Some st /\ unavailable st))) /\
  ((forall err, snd setup <> Raise err) <->
   (exists sensor st,
      configured = Some sensor /\
      states_get hass sensor = Some st /\ ~ unavailable st)) /\
  ((forall err, snd setup <> Raise err) ->
   snd setup = Ok true /\
   handle_of DOMAIN (fst setup) e
   = Some (PIDDeviceHandle_init CONF_NAME CONF_SENSOR_ENTITY_ID e)) /\
  (forall err, snd setup = Raise err -> fst setup = hass).
Proof.
  destruct setup_cases
    as [[Hc Hr]|[[sensor [msg [Hc [Hr Hm]]]]|[sensor [st [Hc [Hs [Hu [Hok Hh]]]]]]]].
  - split; [|split; [|split]].
    + split.
      * intros [msg Hn]. rewrite Hr in Hn. discriminate.
      * intros [sensor [Hs _]]. congruence.
    + split.
      * intros H. exfalso. apply (H AttributeError). rewrite Hr. reflexivity.
      * intros [sensor [st [Hs _]]]. congruence.
    + intros H. exfalso. apply (H AttributeError). rewrite Hr. reflexivity.
    + intros err _. rewrite Hr. reflexivity.
  - split; [|split; [|split]].
    + split; eauto.
    + split.
      * intros H. exfalso. apply (H (ConfigEntryNotReady msg)).
        rewrite Hr. reflexivity.
      * intros [sensor' [st [Hc' [Hs Hu]]]].
        rewrite Hc in Hc'. injection Hc' as <-.
        destruct Hm as [Hn|[st' [Hs' Hu']]]; congruence.
    + intros H. exfalso. apply (H (ConfigEntryNotReady msg)).
      rewrite Hr. reflexivity.
    + intros err _. rewrite Hr. reflexivity.
  - split; [|split; [|split]].
    + split.
      * intros [msg Hr]. rewrite Hr in Hok. discriminate.
      * intros [sensor' [Hc' Hm]].
        rewrite Hc in Hc'. injection Hc' as <-.
        destruct Hm as [Hn|[st' [Hs' Hu']]]; congruence.
    + split; [eauto|]. intros _ err Hr. congruence.
    + auto.
    + intros err Hr. congruence.
Qed.

(** C10: a handle that has just been constructed stores the triple
    (None, None, None) as its last contributions. *)
Theorem new_handle_has_no_contributions :
  last_contributions
    (@PIDDeviceHandle_init CONF_NAME CONF_SENSOR_ENTITY_ID float e)
  = (None, None, None).
Proof. reflexivity. Qed.

End Setup.

(** ** Limits, clamping and the Engine *)

Lemma Qltb_true (x y : Q) : Qltb x y = true <-> x < y.
Proof.
  unfold Qltb. rewrite negb_true_iff. split.
  - intros H. apply Qnot_le_lt. intros Hle.
    apply Qle_bool_iff in Hle. congruence.
  - intros H. destruct (Qle_bool y x) eqn:E; [|reflexivity].
    apply Qle_bool_iff in E. lra.
Qed.

Lemma Qltb_false (x y : Q) : Qltb x y = false <-> y <= x.
Proof.
  unfold Qltb. rewrite negb_false_iff. apply Qle_bool_iff.
Qed.

Lemma over_Some (hi : option Q) (x h : Q) :
  over hi x = Some h -> hi = Some h /\ h < x.
Proof.
  unfold over. destruct hi as [h0|]; [|discriminate].
  destruct (Qltb h0 x) eqn:E; [|discriminate].
  intros [= <-]. apply Qltb_true in E. auto.
Qed.

Lemma over_None (hi : option Q) (x : Q) :
  over hi x = None -> match hi with Some h => x <= h | None => True end.
Proof.
  unfold over. destruct hi as [h0|]; [|trivial].
  destruct (Qltb h0 x) eqn:E; [discriminate|].
  intros _. apply Qltb_false in E. exact E.
Qed.

Lemma under_Some (lo : option Q) (x l : Q) :
  under lo x = Some l -> lo = Some l /\ x < l.
Proof.
  unfold under. destruct lo as [l0|]; [|discriminate].
  destruct (Qltb x l0) eqn:E; [|discriminate].
  intros [= <-]. apply Qltb_true in E. auto.
Qed.

Lemma under_None (lo : option Q) (x : Q) :
  under lo x = None -> match lo with Some l => l <= x | None => True end.
Proof.
  unfold under. destruct lo as [l0|]; [|trivial].
  destruct (Qltb x l0) eqn:E; [discriminate|].
  intros _. apply Qltb_false in E. exact E.
Qed.

(** Clamping between ordered limits lands between them. *)
Lemma clamp_within (x : Q) (lo hi : option Q) :
  limits_ordered lo hi -> within lo hi (clamp x lo hi).
Proof.
  intros Hord. unfold clamp, within.
  destruct (over hi x) as [h|] eqn:Ho.
  - apply over_Some in Ho as [-> Hlt].
    split; [|lra]. destruct lo as [l|]; [|trivial]. exact Hord.
  - apply over_None in Ho.
    destruct (under lo x) as [l|] eqn:Hu.
    + apply under_Some in Hu as [-> Hlt].
      split; [lra|]. destruct hi as [h|]; [|trivial]. exact Hord.
    + apply under_None in Hu. split; assumption.
Qed.

Lemma divide_positive (x y : Q) : 0 < y -> divide x y = Ok (x / y).
Proof.
  intros Hy. unfold divide.
  destruct (Qeq_bool y 0) eqn:E; [|reflexivity].
  apply Qeq_bool_iff in E. lra.
Qed.

(** The two ways a step of the Engine can end. *)
Lemma pid_step_cases (now m : Q) (t : TuningParameters)
    (st : ControllerState) (dt : Q) :
  (dt <= 0 /\ pid_step now m t st dt = Ok NoOp) \/
  (0 < dt /\
   exists p d acc',
     let i :=
       if integral_enabled t
       then Some (integral_accumulator st
                  + integral_gain t * (setpoint t - m) * dt)
       else None in
     pid_step now m t st dt =
       Ok (Computed
             (clamp (term_value p + term_value i + term_value d)
                    (output_min t) (output_max t))
             (p, i, d)
             {| integral_accumulator := acc';
                previous_measurement := Some m;
                last_tick_time := Some now |}) /\
     (integral_enabled t = false -> acc' = integral_accumulator st)).
Proof.
  unfold pid_step.
  destruct (Qle_bool dt 0) eqn:Hdt.
  - left. apply Qle_bool_iff in Hdt. auto.
  - right.
    assert (Hpos : 0 < dt).
    { apply Qnot_le_lt. intros H. apply Qle_bool_iff in H. congruence. }
    split; [exact Hpos|].
    destruct (derivative_enabled t).
    + destruct (previous_measurement st) as [prev|].
      * rewrite (divide_positive _ _ Hpos).
        destruct (integral_enabled t); do 3 eexists; (split; [reflexivity|]);
          [discriminate | reflexivity].
      * destruct (integral_enabled t); do 3 eexists; (split; [reflexivity|]);
          [discriminate | reflexivity].
    + destruct (integral_enabled t); do 3 eexists; (split; [reflexivity|]);
        [discriminate | reflexivity].
Qed.

(** C1: for every tuning whose limits are ordered, whatever the gains
    and the enable flags, a step of the Engine with a positive elapsed
    time computes an output that lies between [output_min] and
    [output_max]; the only other steps are the no-op steps of a
    non-positive elapsed time, which compute no output. *)
Theorem output_within_limits (now m : Q) (t : TuningParameters)
    (st : ControllerState) (dt : Q) :
  limits_ordered (output_min t) (output_max t) ->
  (0 < dt /\
   exists out c st',
     pid_step now m t st dt = Ok (Computed out c st') /\
     within (output_min t) (output_max t) out) \/
  (dt <= 0 /\ pid_step now m t st dt = Ok NoOp).
Proof.
  intros Hord.
  destruct (pid_step_cases now m t st dt) as [H|[Hpos [p [d [acc' [Hs _]]]]]].
  - right. exact H.
  - left. split; [exact Hpos|].
    do 3 eexists. split; [exact Hs|]. apply clamp_within, Hord.
Qed.

(** C7: a step with the integral term disabled reports no integral
    contribution and leaves the accumulator exactly as it was; the next
    step with the term enabled accumulates on top of that held value. *)
Theorem disabled_integral_holds_accumulator
    (now1 m1 : Q) (t1 : TuningParameters) (st : ControllerState) (dt1 : Q)
    (now2 m2 : Q) (t2 : TuningParameters) (dt2 : Q) :
  integral_enabled t1 = false ->
  let st1 := state_after (pid_step now1 m1 t1 st dt1) st in
  (0 < dt1 ->
   exists out p d,
     pid_step now1 m1 t1 st dt1 = Ok (Computed out (p, None, d) st1)) /\
  integral_accumulator st1 = integral_accumulator st /\
  (integral_enabled t2 = true -> 0 < dt2 ->
   exists out p d st2,
     pid_step now2 m2 t2 st1 dt2 =
       Ok (Computed out
             (p,
              Some (integral_accumulator st
                    + integral_gain t2 * (setpoint t2 - m2) * dt2),
              d)
             st2)).
Proof.
  intros Hoff st1.
  assert (Hacc : integral_accumulator st1 = integral_accumulator st).
  { subst st1.
    destruct (pid_step_cases now1 m1 t1 st dt1)
      as [[_ ->]|[_ [p [d [acc' [-> Hh]]]]]]; simpl; auto. }
  split; [|split].
  - intros Hpos. subst st1.
    destruct (pid_step_cases now1 m1 t1 st dt1)
      as [[Hle _]|[_ [p [d [acc' [Hs Hh]]]]]]; [lra|].
    rewrite Hoff in Hs. rewrite Hs. simpl. eauto.
  - exact Hacc.
  - intros Hon Hpos.
    destruct (pid_step_cases now2 m2 t2 st1 dt2)
      as [[Hle _]|[_ [p [d [acc' [Hs _]]]]]]; [lra|].
    rewrite Hon, Hacc in Hs. rewrite Hs. eauto.
Qed.

(** The Engine never raises: the elapsed time it divides by is positive. *)
Lemma pid_step_never_raises (now m : Q) (t : TuningParameters)
    (st : ControllerState) (dt : Q) (err : exn) :
  pid_step now m t st dt <> Raise err.
Proof.
  destruct (pid_step_cases now m t st dt)
    as [[_ ->]|[_ [p [d [acc' [-> _]]]]]]; discriminate.
Qed.

Lemma order_limits_ordered (lo hi : option Q) :
  limits_ordered (fst (order_limits lo hi)) (snd (order_limits lo hi)).
Proof.
  unfold order_limits. destruct lo as [l|], hi as [h|]; simpl; trivial.
  destruct (Qltb h l) eqn:E; simpl.
  - apply Qltb_true in E. lra.
  - apply Qltb_false in E. exact E.
Qed.

(** ** Resolver and Control Session *)

Section Session.

Variable DOMAIN : string.
Variable float_of_string : string -> option Q.
Variable keys : ParameterKeys.
Variable hass : @HomeAssistant Q.

Local Abbreviation resolve := (resolve_tuning DOMAIN float_of_string keys hass).
Local Abbreviation raw := (raw_limits DOMAIN float_of_string keys hass).
Local Abbreviation run := (tick DOMAIN float_of_string keys hass).

Lemma resolve_limits (self : @PIDDeviceHandle Q) :
  (output_min (resolve self), output_max (resolve self))
  = order_limits (fst (raw self)) (snd (raw self)).
Proof.
  unfold resolve_tuning. destruct (raw self) as [lo hi]. simpl.
  destruct (order_limits lo hi) as [lo' hi']. reflexivity.
Qed.

Lemma resolve_ordered (self : @PIDDeviceHandle Q) :
  limits_ordered (output_min (resolve self)) (output_max (resolve self)).
Proof.
  pose proof (resolve_limits self) as Hr.
  pose proof (order_limits_ordered (fst (raw self)) (snd (raw self))) as Ho.
  rewrite <- Hr in Ho. exact Ho.
Qed.

(** A tick either leaves the session alone or hands out an output that
    lies between the limits it resolved. *)
Lemma tick_output_within_limits (s : ControlSession) (now dt : Q) :
  run s now dt = (s, Ok (last_output s)) \/
  exists s' out,
    run s now dt = (s', Ok (Some out)) /\
    last_output s' = Some out /\
    within (output_min (resolve (handle s))) (output_max (resolve (handle s))) out.
Proof.
  unfold tick.
  destruct (read _ _ _) as [v|]; [|left; reflexivity].
  destruct (pid_step_cases now v (resolve (handle s)) (controller s) dt)
    as [[_ ->]|[_ [p [d [acc' [-> _]]]]]]; [left; reflexivity|].
  right. do 2 eexists. split; [reflexivity|]. split; [reflexivity|].
  apply clamp_within, resolve_ordered.
Qed.

(** C8: the limits of a resolved tuning are ordered; published limits
    that are the wrong way round come out swapped, and published limits
    that are in order come out as they are. *)
Theorem resolved_limits_ordered (self : @PIDDeviceHandle Q) :
  limits_ordered (output_min (resolve self)) (output_max (resolve self)) /\
  (forall l h, raw self = (Some l, Some h) -> h < l ->
     output_min (resolve self) = Some h /\
     output_max (resolve self) = Some l) /\
  (limits_ordered (fst (raw self)) (snd (raw self)) ->
     output_min (resolve self) = fst (raw self) /\
     output_max (resolve self) = snd (raw self)).
Proof.
  pose proof (resolve_limits self) as Hr.
  split; [apply resolve_ordered|]. split.
  - intros l h Hraw Hlt. rewrite Hraw in Hr. simpl in Hr.
    apply Qltb_true in Hlt. rewrite Hlt in Hr.
    injection Hr as -> ->. auto.
  - intros Hord. destruct (raw self) as [[l|] [h|]]; simpl in *;
      try (injection Hr as -> ->; auto).
    destruct (Qltb h l) eqn:E.
    + apply Qltb_true in E. lra.
    + injection Hr as -> ->. auto.
Qed.

(** C5: a tick on which the sensor gives no value leaves the session as
    it was, controller state included, and hands back the previous
    output. *)
Theorem invalid_reading_skips_tick (s : ControlSession) (now dt : Q) :
  (forall value,
     get_input_sensor_value float_of_string hass (handle s)
     <> Ok (Some value)) ->
  run s now dt = (s, Ok (last_output s)) /\
  controller (fst (run s now dt)) = controller s /\
  last_output (fst (run s now dt)) = last_output s.
Proof.
  intros Hnone. unfold tick, read.
  destruct (get_input_sensor_value _ _ _) as [[value|]|err]; auto.
  exfalso. apply (Hnone value). reflexivity.
Qed.

(** C6: a step with an elapsed time of zero or less is a no-op: the
    Engine computes nothing, the session keeps its controller state and
    hands back the previous output; and no step, whatever the elapsed
    time, ends in a division error. *)
Theorem non_positive_elapsed_time_is_noop (s : ControlSession)
    (now m : Q) (t : TuningParameters) (st : ControllerState) (dt : Q) :
  (forall err, pid_step now m t st dt <> Raise err) /\
  (forall err, snd (run s now dt) <> Raise err) /\
  (dt <= 0 ->
   pid_step now m t st dt = Ok NoOp /\
   state_after (pid_step now m t st dt) st = st /\
   run s now dt = (s, Ok (last_output s))).
Proof.
  split; [|split].
  - intros err. apply pid_step_never_raises.
  - intros err. unfold tick.
    destruct (read _ _ _) as [v|]; [|discriminate].
    destruct (pid_step_cases now v (resolve (handle s)) (controller s) dt)
      as [[_ ->]|[_ [p [d [acc' [-> _]]]]]]; discriminate.
  - intros Hle. split; [|split].
    + destruct (pid_step_cases now m t st dt) as [[_ H]|[H _]]; [exact H | lra].
    + destruct (pid_step_cases now m t st dt) as [[_ ->]|[H _]]; [reflexivity | lra].
    + unfold tick.
      destruct (read _ _ _) as [v|]; [|reflexivity].
      destruct (pid_step_cases now v (resolve (handle s)) (controller s) dt)
        as [[_ ->]|[H _]]; [reflexivity | lra].
Qed.

End Session.

(** ** The properties on concrete hosts *)

Module Examples.

Import Sample.

Lemma off_is_available : ~ unavailable (mkState "off").
Proof. intros [H|H]; discriminate H. Qed.

Lemma temperature_is_available : ~ unavailable (mkState "65").
Proof. intros [H|H]; discriminate H. Qed.

(** Setpoint 70, gain 2, limits 0 and 100, measurement 65: output 10,
    and no derivative contribution on the first step. *)
Example proportional_step :
  pid_step 1 65 tuning fresh_state 1
  = Ok (Computed 10 (Some 10, Some 0, None)
          {| integral_accumulator := 0;
             previous_measurement := Some 65;
             last_tick_time := Some 1 |}).
Proof. reflexivity. Qed.

(** Integral gain 1, one second per step, error 5: the accumulator goes
    5, 10, 15. *)
Example accumulator_grows :
  map (fun n => integral_accumulator (after_steps n)) [1; 2; 3]%nat
  = [5; 10; 15].
Proof. reflexivity. Qed.

(** A whole tick on the running host: the limits come out as 0 and 100,
    the output is 10 and the handle stores the contributions. *)
Example running_tick :
  let '(s, out) :=
    tick DOMAIN float_of_string keys running (new_session boiler_handle) 7 1 in
  out = Ok (Some 10) /\
  last_contributions (handle s) = (Some 10, None, None) /\
  previous_measurement (controller s) = Some 65.
Proof. vm_compute. auto. Qed.

(** Setup is refused on a host without the sensor and on a host whose
    sensor is unavailable, and leaves both hosts as they were. *)
Example setup_refused :
  async_setup_entry DOMAIN CONF_NAME CONF_SENSOR_ENTITY_ID bare boiler
  = (bare, Raise (ConfigEntryNotReady "Sensor sensor.temp not ready")) /\
  async_setup_entry DOMAIN CONF_NAME CONF_SENSOR_ENTITY_ID sensor_lost boiler
  = (sensor_lost, Raise (ConfigEntryNotReady "Sensor sensor.temp not ready")).
Proof. split; reflexivity. Qed.

(** The integral switch of the running host is off. *)
Lemma get_switch_fail_open_witness :
  source DOMAIN running boiler_handle "switch" "i_enabled" = Some (mkState "off") /\
  get_switch DOMAIN running boiler_handle "i_enabled" = false.
Proof.
  split; [reflexivity|].
  pose proof (get_switch_fail_open DOMAIN running boiler_handle "i_enabled") as H.
  change (source DOMAIN running boiler_handle "switch" "i_enabled")
    with (Some (mkState "off")) in H.
  destruct H as [_ H]. specialize (H off_is_available).
  destruct (get_switch DOMAIN running boiler_handle "i_enabled");
    [|reflexivity].
  destruct H as [H _]. specialize (H eq_refl). discriminate H.
Defined.

(** The proportional gain of the running host is 2. *)
Lemma get_number_or_none_witness :
  get_number DOMAIN float_of_string running boiler_handle "kp" = Some 2.
Proof.
  pose proof (get_number_or_none DOMAIN float_of_string running
                boiler_handle "kp") as H.
  change (source DOMAIN running boiler_handle "number" "kp")
    with (Some (mkState "2")) in H.
  destruct H as [_ H]. rewrite H; [reflexivity|].
  intros [E|E]; discriminate E.
Defined.

(** On a host without the entity the claim's default is not what comes
    back: nothing does. *)
Lemma get_number_default_counterexample :
  source DOMAIN bare boiler_handle "number" "kp" = None /\
  get_number DOMAIN float_of_string bare boiler_handle "kp" = None /\
  get_number DOMAIN float_of_string bare boiler_handle "kp" <> Some 5.
Proof.
  split; [reflexivity|]. split; [reflexivity|]. discriminate.
Qed.

(** An entry that names no sensor: the lookup of the sensor raises, in
    the reader and in setup, and setup leaves the host as it was. *)
Example no_sensor_named :
  get_input_sensor_value float_of_string running
    (PIDDeviceHandle_init CONF_NAME CONF_SENSOR_ENTITY_ID unnamed)
  = Raise AttributeError /\
  async_setup_entry DOMAIN CONF_NAME CONF_SENSOR_ENTITY_ID running unnamed
  = (running, Raise AttributeError).
Proof. split; reflexivity. Qed.

(** The sensor of the running host reads 65. *)
Lemma get_input_sensor_value_valid_iff_witness :
  get_input_sensor_value float_of_string running boiler_handle = Ok (Some 65).
Proof.
  apply (get_input_sensor_value_valid_iff float_of_string running boiler_handle).
  exists "sensor.temp", (mkState "65"). split; [reflexivity|].
  split; [reflexivity|].
  split; [exact temperature_is_available | reflexivity].
Defined.

(** Setup on the running host goes through. *)
Lemma setup_blocks_iff_sensor_missing_witness :
  snd (async_setup_entry DOMAIN CONF_NAME CONF_SENSOR_ENTITY_ID running boiler)
  = Ok true.
Proof.
  apply (setup_blocks_iff_sensor_missing DOMAIN CONF_NAME
           CONF_SENSOR_ENTITY_ID running boiler).
  intros err. discriminate.
Defined.

(** Setpoint 70, gain 2, measurement 65: the output 10 is within 0..100. *)
Lemma output_within_limits_witness :
  limits_ordered (output_min tuning) (output_max tuning) /\
  exists out c st',
    pid_step 1 65 tuning fresh_state 1 = Ok (Computed out c st') /\
    within (output_min tuning) (output_max tuning) out.
Proof.
  assert (Hord : limits_ordered (output_min tuning) (output_max tuning)).
  { simpl. lra. }
  split; [exact Hord|].
  destruct (output_within_limits 1 65 tuning fresh_state 1 Hord)
    as [[_ H]|[Hle _]]; [exact H | lra].
Defined.

(** Published the wrong way round as 100 and 0, the limits resolve to
    0 and 100. *)
Lemma resolved_limits_ordered_witness :
  raw_limits DOMAIN float_of_string keys running boiler_handle
  = (Some 100, Some 0) /\
  output_min (resolve_tuning DOMAIN float_of_string keys running boiler_handle)
  = Some 0 /\
  output_max (resolve_tuning DOMAIN float_of_string keys running boiler_handle)
  = Some 100.
Proof.
  assert (Hraw : raw_limits DOMAIN float_of_string keys running boiler_handle
                 = (Some 100, Some 0)) by reflexivity.
  split; [exact Hraw|].
  apply (resolved_limits_ordered DOMAIN float_of_string keys running
           boiler_handle); [exact Hraw | lra].
Defined.

(** Once the sensor is unavailable the session is left alone. *)
Lemma invalid_reading_skips_tick_witness :
  get_input_sensor_value float_of_string sensor_lost boiler_handle = Ok None /\
  tick DOMAIN float_of_string keys sensor_lost (new_session boiler_handle) 7 1
  = (new_session boiler_handle, Ok None).
Proof.
  assert (Hnone : get_input_sensor_value float_of_string sensor_lost
                    (handle (new_session boiler_handle)) = Ok None)
    by reflexivity.
  split; [exact Hnone|].
  apply (invalid_reading_skips_tick DOMAIN float_of_string keys sensor_lost
           (new_session boiler_handle) 7 1).
  intros value. rewrite Hnone. discriminate.
Defined.

(** A tick with no elapsed time changes nothing. *)
Lemma non_positive_elapsed_time_is_noop_witness :
  pid_step 7 65 tuning fresh_state 0 = Ok NoOp /\
  tick DOMAIN float_of_string keys running (new_session boiler_handle) 7 0
  = (new_session boiler_handle, Ok None).
Proof.
  assert (Hle : 0 <= 0) by lra.
  destruct (non_positive_elapsed_time_is_noop DOMAIN float_of_string keys
              running (new_session boiler_handle) 7 65 tuning fresh_state 0)
    as [_ [_ H]].
  destruct (H Hle) as [Hstep [_ Hrun]].
  split; [exact Hstep | exact Hrun].
Defined.

(** Integral gain 1, elapsed time 1, error 5: a step with the integral
    term off holds the accumulator at 5, the next step with it on
    reports 5 + 1 * (70 - 65) * 1. *)
Lemma disabled_integral_holds_accumulator_witness :
  let off :=
    {| proportional_gain := 0; integral_gain := 1; derivative_gain := 0;
       setpoint := 70; output_min := None; output_max := None;
       proportional_enabled := true; integral_enabled := false;
       derivative_enabled := true |} in
  let on :=
    {| proportional_gain := 0; integral_gain := 1; derivative_gain := 0;
       setpoint := 70; output_min := None; output_max := None;
       proportional_enabled := true; integral_enabled := true;
       derivative_enabled := true |} in
  let st :=
    {| integral_accumulator := 5; previous_measurement := Some 65;
       last_tick_time := Some 1 |} in
  let st1 := state_after (pid_step 2 65 off st 1) st in
  integral_accumulator st1 = 5 /\
  exists out p d st2,
    pid_step 3 65 on st1 1
    = Ok (Computed out (p, Some (5 + 1 * (70 - 65) * 1), d) st2).
Proof.
  intros off on st st1.
  assert (Hpos : 0 < 1) by lra.
  destruct (disabled_integral_holds_accumulator 2 65 off st 1 3 65 on 1 eq_refl)
    as [_ [Hacc Hnext]].
  split; [exact Hacc | exact (Hnext eq_refl Hpos)].
Defined.

End Examples.

(** * Further properties of the module *)

(** ** Strings of the registry slots *)

Lemma append_inj_r (a x y : string) : a +:+ x = a +:+ y -> x = y.
Proof.
  induction a as [|c a IH]; simpl; [auto|].
  intros [= H]. auto.
Qed.

Lemma no_underscore_cons (c : ascii) (s : string) :
  no_underscore (String c s) = true -> c <> "_"%char /\ no_underscore s = true.
Proof.
  simpl. rewrite andb_true_iff, negb_true_iff. intros [Hc Hs].
  split; [|exact Hs]. intros ->. rewrite Ascii.eqb_refl in Hc. discriminate.
Qed.

(** An id without underscores ends at the first underscore of the slot
    name, so the slot name gives back the id and the key. *)
Lemma slot_name_inj (a b x y : string) :
  no_underscore a = true -> no_underscore b = true ->
  a +:+ "_" +:+ x = b +:+ "_" +:+ y -> a = b /\ x = y.
Proof.
  revert b. induction a as [|c a IH]; intros [|d b] Ha Hb; simpl.
  - intros [= H]. auto.
  - intros [= Hc H]. apply no_underscore_cons in Hb as [Hd _]. congruence.
  - intros [= Hc H]. apply no_underscore_cons in Ha as [Hd _]. congruence.
  - intros [= Hc H].
    apply no_underscore_cons in Ha as [_ Ha].
    apply no_underscore_cons in Hb as [_ Hb].
    destruct (IH b Ha Hb H) as [-> ->]. subst. auto.
Qed.

Section Isolation.

Variable DOMAIN : string.
Context {float : Type}.
Variable float_of_string : string -> option float.
Variables hass hass' : @HomeAssistant float.
Variable self : @PIDDeviceHandle float.

Hypothesis same_states : states hass' = states hass.

Lemma states_get_same (entity_id : string) :
  states_get hass' entity_id = states_get hass entity_id.
Proof. unfold states_get. rewrite same_states. reflexivity. Qed.

Lemma states_get_opt_same (entity_id : option string) :
  states_get_opt hass' entity_id = states_get_opt hass entity_id.
Proof.
  destruct entity_id as [eid|]; simpl; [|reflexivity].
  rewrite states_get_same. reflexivity.
Qed.

Lemma get_number_same (key : string) :
  _get_entity_id DOMAIN hass' self "number" key
  = _get_entity_id DOMAIN hass self "number" key ->
  get_number DOMAIN float_of_string hass' self key
  = get_number DOMAIN float_of_string hass self key.
Proof.
  intros H. unfold get_number. rewrite H. clear H.
  destruct (_get_entity_id DOMAIN hass self _ key) as [entity_id|];
    [|reflexivity].
  rewrite states_get_same. reflexivity.
Qed.

Lemma get_switch_same (key : string) :
  _get_entity_id DOMAIN hass' self "switch" key
  = _get_entity_id DOMAIN hass self "switch" key ->
  get_switch DOMAIN hass' self key = get_switch DOMAIN hass self key.
Proof.
  intros H. unfold get_switch. rewrite H. clear H.
  destruct (_get_entity_id DOMAIN hass self _ key) as [entity_id|];
    [|reflexivity].
  rewrite states_get_same. reflexivity.
Qed.

Lemma _get_entity_id_other_slot (slot : string * string * string)
    (eid platform key : string) :
  registry hass' = <[slot := eid]> (registry hass) ->
  slot <> (platform, DOMAIN, entry_id (entry self) +:+ "_" +:+ key) ->
  _get_entity_id DOMAIN hass' self platform key
  = _get_entity_id DOMAIN hass self platform key.
Proof.
  intros Hreg Hne. unfold _get_entity_id, async_get_entity_id.
  rewrite Hreg. apply lookup_insert_ne. exact Hne.
Qed.

(** X7: registering an entity for one parameter key of the entry, on a
    host whose states stay as they are, changes no reading of another
    key, changes no number reading unless it is a number entity and no
    switch reading unless it is a switch entity, and never changes the
    sensor reading. *)
Theorem registration_leaves_other_keys (platform' key' eid : string) :
  registry hass' =
    <[(platform', DOMAIN, entry_id (entry self) +:+ "_" +:+ key') := eid]>
      (registry hass) ->
  (forall key, key <> key' \/ platform' <> "number" ->
     get_number DOMAIN float_of_string hass' self key
     = get_number DOMAIN float_of_string hass self key) /\
  (forall key, key <> key' \/ platform' <> "switch" ->
     get_switch DOMAIN hass' self key = get_switch DOMAIN hass self key) /\
  get_input_sensor_value float_of_string hass' self
  = get_input_sensor_value float_of_string hass self.
Proof.
  intros Hreg. split; [|split].
  - intros key Hne. apply get_number_same.
    eapply _get_entity_id_other_slot; [exact Hreg|].
    intros [= Hp Hk]. do 2 apply append_inj_r in Hk.
    destruct Hne as [Hne|Hne]; congruence.
  - intros key Hne. apply get_switch_same.
    eapply _get_entity_id_other_slot; [exact Hreg|].
    intros [= Hp Hk]. do 2 apply append_inj_r in Hk.
    destruct Hne as [Hne|Hne]; congruence.
  - unfold get_input_sensor_value. rewrite states_get_opt_same. reflexivity.
Qed.

(** X8: when entry ids contain no underscore, registering an entity
    for a key of another entry changes no number and no switch reading
    of this entry's handle. *)
Theorem registration_leaves_other_entries
    (other_id platform' key' eid : string) :
  no_underscore other_id = true ->
  no_underscore (entry_id (entry self)) = true ->
  other_id <> entry_id (entry self) ->
  registry hass' =
    <[(platform', DOMAIN, other_id +:+ "_" +:+ key') := eid]> (registry hass) ->
  forall key,
    get_number DOMAIN float_of_string hass' self key
    = get_number DOMAIN float_of_string hass self key /\
    get_switch DOMAIN hass' self key = get_switch DOMAIN hass self key.
Proof.
  intros Ho Hs Hne Hreg key.
  assert (Hslot : forall platform,
            (platform', DOMAIN, other_id +:+ "_" +:+ key')
            <> (platform, DOMAIN, entry_id (entry self) +:+ "_" +:+ key)).
  { intros platform [= _ Hk].
    destruct (slot_name_inj _ _ _ _ Ho Hs Hk) as [Hid _]. contradiction. }
  split.
  - apply get_number_same.
    eapply _get_entity_id_other_slot; [exact Hreg | apply Hslot].
  - apply get_switch_same.
    eapply _get_entity_id_other_slot; [exact Hreg | apply Hslot].
Qed.

End Isolation.

(** ** Setup and unload of an entry *)

Section Lifecycle.

Variables DOMAIN CONF_NAME CONF_SENSOR_ENTITY_ID : string.
Context {float : Type}.
Variable float_of_string : string -> option float.

Local Abbreviation Host := (@HomeAssistant float).
Local Abbreviation make := (@PIDDeviceHandle_init CONF_NAME CONF_SENSOR_ENTITY_ID float).
Local Abbreviation setup :=
  (@async_setup_entry DOMAIN CONF_NAME CONF_SENSOR_ENTITY_ID float).
Local Abbreviation unload := (@async_unload_entry DOMAIN float).
Local Abbreviation held := (@handle_of DOMAIN float).

(** What a setup that went through did to the host. *)
Lemma setup_ok_inv (hass : Host) (e : ConfigEntry) :
  snd (setup hass e) = Ok true ->
  exists sensor st,
    configured_sensor CONF_SENSOR_ENTITY_ID e = Some sensor /\
    states_get hass sensor = Some st /\
    usable st = true /\
    fst (setup hass e)
    = async_forward_entry_setups (store_handle DOMAIN hass e (make e)) e PLATFORMS.
Proof.
  unfold async_setup_entry.
  destruct (configured_sensor _ _) as [sensor|];
    cbn [states_get_opt]; [|discriminate].
  destruct (states_get hass sensor) as [st|] eqn:Hs; [|discriminate].
  destruct (usable st) eqn:Hu; simpl; [|discriminate].
  intros _. exists sensor, st. repeat split; auto.
Qed.

(** A setup that did not return true left the host as it was. *)
Lemma setup_refused_inv (hass : Host) (e : ConfigEntry) :
  snd (setup hass e) <> Ok true -> fst (setup hass e) = hass.
Proof.
  unfold async_setup_entry.
  destruct (configured_sensor _ _) as [sensor|];
    cbn [states_get_opt]; [|reflexivity].
  destruct (states_get hass sensor) as [st|]; [|reflexivity].
  destruct (usable st); simpl; [congruence | reflexivity].
Qed.

Lemma setup_ok_or_refused (hass : Host) (e : ConfigEntry) :
  snd (setup hass e) = Ok true \/ snd (setup hass e) <> Ok true.
Proof.
  destruct (snd (setup hass e)) as [[|]|err]; auto; right; discriminate.
Qed.



(** X5: setting an entry up a second time ends exactly as the first
    time did: the same answer and the same host. *)
Theorem setup_twice_is_setup_once (hass : Host) (e : ConfigEntry) :
  setup (fst (setup hass e)) e = setup hass e.
Proof.
  destruct (setup_ok_or_refused hass e) as [Hok|Hno].
  - destruct (setup_ok_inv hass e Hok) as [sensor [st [Hc [Hs [Hu Hfst]]]]].
    rewrite (surjective_pairing (setup hass e)) at 2. rewrite Hok, Hfst.
    unfold async_setup_entry at 1. rewrite Hc. simpl.
    change (states_get (async_forward_entry_setups
                          (store_handle DOMAIN hass e (make e)) e PLATFORMS)
                       sensor)
      with (states_get hass sensor).
    rewrite Hs, Hu. simpl. f_equal.
    unfold async_forward_entry_setups, store_handle. simpl.
    rewrite lookup_insert_eq. simpl.
    rewrite !insert_insert_eq. reflexivity.
  - rewrite (setup_refused_inv hass e Hno). reflexivity.
Qed.

(** X6: the sensor that setup checks is the sensor the new handle
    reads.  After a setup that went through, the stored handle reads
    what the checked state parses to; and whenever a new handle reads a
    number on a host, setup goes through on that host. *)
Theorem setup_agrees_with_sensor_reader (hass : Host) (e : ConfigEntry) :
  (snd (setup hass e) = Ok true ->
   exists sensor st,
     sensor_entity_id (make e) = Some sensor /\
     states_get hass sensor = Some st /\
     ~ unavailable st /\
     held (fst (setup hass e)) e = Some (make e) /\
     get_input_sensor_value float_of_string (fst (setup hass e)) (make e)
     = Ok (float_of_string (state st))) /\
  (forall v,
     get_input_sensor_value float_of_string hass (make e) = Ok (Some v) ->
     snd (setup hass e) = Ok true).
Proof.
  split.
  - intros Hok.
    destruct (setup_ok_inv hass e Hok) as [sensor [st [Hc [Hs [Hu Hfst]]]]].
    exists sensor, st. split; [exact Hc|]. split; [exact Hs|].
    split; [apply usable_true_iff, Hu|].
    rewrite Hfst. split.
    + unfold handle_of, async_forward_entry_setups, store_handle. simpl.
      rewrite lookup_insert_eq. apply lookup_insert_eq.
    + rewrite (get_input_sensor_value_named float_of_string _ (make e) sensor Hc).
      change (states_get (async_forward_entry_setups
                            (store_handle DOMAIN hass e (make e)) e PLATFORMS)
                         sensor)
        with (states_get hass sensor).
      rewrite Hs. simpl. rewrite Hu. reflexivity.
  - intros v. unfold get_input_sensor_value, async_setup_entry. simpl.
    destruct (configured_sensor _ _) as [sensor|];
      cbn [states_get_opt]; [|discriminate].
    destruct (states_get hass sensor) as [st|]; simpl; [|discriminate].
    destruct (usable st); simpl; [reflexivity | discriminate].
Qed.

(** The steps of unload on a host that holds a handle for the entry and
    on a host that does not. *)
Lemma unload_cases (hass : Host) (e : ConfigEntry) (unloaded : bool) :
  (exists per_domain h,
     hass_data hass !! DOMAIN = Some per_domain /\
     per_domain !! entry_id e = Some h /\
     unload hass e unloaded
     = inr (async_unload_platforms
              (with_data hass
                 (<[DOMAIN := delete (entry_id e) per_domain]> (hass_data hass)))
              e PLATFORMS unloaded)) \/
  (held hass e = None /\
   unload hass e unloaded
   = inr (async_unload_platforms hass e PLATFORMS unloaded)).
Proof.
  unfold async_unload_entry, entry_loaded, pop_handle, handle_of, contains,
    getitem, pop.
  destruct (hass_data hass !! DOMAIN) as [per_domain|] eqn:Hd; simpl.
  - destruct (per_domain !! entry_id e) as [h|] eqn:He; simpl.
    + left. exists per_domain, h. auto.
    + right. auto.
  - right. auto.
Qed.

Lemma held_unload_platforms (hass : Host) (e e' : ConfigEntry)
    (ps : list Platform) (unloaded : bool) :
  held (fst (async_unload_platforms hass e ps unloaded)) e' = held hass e'.
Proof. destruct unloaded; reflexivity. Qed.



(** X1: unload never ends in a [KeyError], whatever the host holds: it
    returns the answer of the host's platform unload, and afterwards the
    host holds no handle for the entry, also when that answer is false;
    when there was no handle the [data] dictionary is left as it was. *)
Theorem unload_never_fails (hass : Host) (e : ConfigEntry) (unloaded : bool) :
  exists hass',
    unload hass e unloaded = inr (hass', unloaded) /\
    held hass' e = None /\
    (held hass e = None -> hass_data hass' = hass_data hass).
Proof.
  destruct (unload_cases hass e unloaded)
    as [[per_domain [h [Hd [He ->]]]]|[Hnone ->]].
  - exists (fst (async_unload_platforms
                   (with_data hass
                      (<[DOMAIN := delete (entry_id e) per_domain]>
                         (hass_data hass)))
                   e PLATFORMS unloaded)).
    split; [destruct unloaded; reflexivity|]. split.
    + rewrite held_unload_platforms. unfold handle_of. simpl.
      rewrite lookup_insert_eq. apply lookup_delete_eq.
    + unfold handle_of. rewrite Hd, He. discriminate.
  - exists (fst (async_unload_platforms hass e PLATFORMS unloaded)).
    split; [destruct unloaded; reflexivity|]. split.
    + rewrite held_unload_platforms. exact Hnone.
    + intros _. destruct unloaded; reflexivity.
Qed.



End Lifecycle.

(** ** Which sensor an entry uses *)

Section Precedence.

Variables DOMAIN CONF_NAME CONF_SENSOR_ENTITY_ID : string.
Context {float : Type}.
Variable hass : @HomeAssistant float.
Variable e : ConfigEntry.

Local Abbreviation make := (@PIDDeviceHandle_init CONF_NAME CONF_SENSOR_ENTITY_ID float).
Local Abbreviation setup :=
  (@async_setup_entry DOMAIN CONF_NAME CONF_SENSOR_ENTITY_ID float).

Lemma setup_ok_iff_usable :
  snd (setup hass e) = Ok true <->
  exists sensor st,
    configured_sensor CONF_SENSOR_ENTITY_ID e = Some sensor /\
    states_get hass sensor = Some st /\
    ~ unavailable st.
Proof.
  unfold async_setup_entry.
  destruct (configured_sensor _ _) as [sensor|]; cbn [states_get_opt].
  - destruct (states_get hass sensor) as [st|] eqn:Hs.
    + destruct (usable st) eqn:Hu; simpl.
      * apply usable_true_iff in Hu. split; eauto 6.
      * apply usable_false_iff in Hu. split; [discriminate|].
        intros [sensor' [st' [[= <-] [Hs' Hn]]]].
        rewrite Hs in Hs'. injection Hs' as <-. contradiction.
    + simpl. split; [discriminate|].
      intros [sensor' [st [[= <-] [Hs' _]]]]. congruence.
  - simpl. split; [discriminate|]. intros [sensor [st [Hc _]]]. discriminate.
Qed.

(** X9: a sensor named in the options of an entry takes precedence over
    the one in its data: the handle reads that sensor and setup goes
    through exactly when that sensor has a state that is neither unknown
    nor unavailable, whatever the data name.  The sensor of the data is
    used only when the options name none. *)
Theorem options_sensor_takes_precedence :
  (forall s, options e !! CONF_SENSOR_ENTITY_ID = Some s ->
     sensor_entity_id (make e) = Some s /\
     (snd (setup hass e) = Ok true <->
      exists st, states hass !! s = Some st /\ ~ unavailable st)) /\
  (options e !! CONF_SENSOR_ENTITY_ID = None ->
     sensor_entity_id (make e) = data e !! CONF_SENSOR_ENTITY_ID).
Proof.
  split.
  - intros s Hopt.
    assert (Hc : configured_sensor CONF_SENSOR_ENTITY_ID e = Some s).
    { unfold configured_sensor. rewrite Hopt. reflexivity. }
    split; [exact Hc|].
    rewrite setup_ok_iff_usable, Hc. unfold states_get. split.
    + intros [sensor [st [[= <-] H]]]. eauto.
    + intros [st H]. eauto.
  - intros Hopt. simpl. unfold configured_sensor. rewrite Hopt. reflexivity.
Qed.

End Precedence.

(** ** The further properties on concrete hosts *)

Module LifecycleExamples.

Import Sample.

(** With underscores in entry ids two entries can share a slot name. *)
Example underscore_ids_share_a_slot :
  "a" +:+ "_" +:+ "b_c" = "a_b" +:+ "_" +:+ "c".
Proof. reflexivity. Qed.

(** Unloading an entry that was never set up, on a host that holds
    nothing for the integration, changes nothing. *)
Example unload_on_bare_host :
  async_unload_entry DOMAIN bare boiler false = inr (bare, false).
Proof. reflexivity. Qed.

(** Registering the derivative gain leaves the proportional gain at 2. *)
Lemma registration_leaves_other_keys_witness :
  get_number DOMAIN float_of_string
    (registered ("number", DOMAIN, "e1_kd") "number.kd") boiler_handle "kp"
  = Some 2.
Proof.
  rewrite (proj1 (registration_leaves_other_keys DOMAIN float_of_string
                    running (registered ("number", DOMAIN, "e1_kd") "number.kd")
                    boiler_handle eq_refl "number" "kd" "number.kd" eq_refl)
                 "kp").
  - reflexivity.
  - left. discriminate.
Defined.

(** Registering a switch for the chiller leaves the boiler's switch off. *)
Lemma registration_leaves_other_entries_witness :
  get_switch DOMAIN
    (registered ("switch", DOMAIN, "e2_i_enabled") "switch.i2") boiler_handle
    "i_enabled"
  = false.
Proof.
  rewrite (proj2 (registration_leaves_other_entries DOMAIN float_of_string
                    running
                    (registered ("switch", DOMAIN, "e2_i_enabled") "switch.i2")
                    boiler_handle eq_refl "e2" "switch" "i_enabled" "switch.i2"
                    eq_refl eq_refl ltac:(discriminate) eq_refl "i_enabled")).
  reflexivity.
Defined.


(** After setup the boiler's handle reads 65. *)
Lemma setup_agrees_with_sensor_reader_witness :
  get_input_sensor_value float_of_string loaded boiler_handle = Ok (Some 65).
Proof.
  destruct (setup_agrees_with_sensor_reader DOMAIN CONF_NAME
              CONF_SENSOR_ENTITY_ID float_of_string running boiler)
    as [H _].
  destruct (H eq_refl) as [sensor [st [Hc [Hs [_ [_ Hread]]]]]].
  change (sensor_entity_id
            (PIDDeviceHandle_init CONF_NAME CONF_SENSOR_ENTITY_ID boiler))
    with (Some "sensor.temp") in Hc.
  injection Hc as <-.
  change (states_get running "sensor.temp")
    with (Some (mkState "65")) in Hs.
  injection Hs as <-. exact Hread.
Defined.

(** Unloading on a host that holds nothing, with a refusing host. *)
Lemma unload_never_fails_witness :
  exists hass',
    async_unload_entry DOMAIN bare boiler false = inr (hass', false) /\
    handle_of DOMAIN hass' boiler = None /\
    hass_data hass' = hass_data bare.
Proof.
  destruct (unload_never_fails DOMAIN bare boiler false)
    as [hass' [Hu [Hnone Hsame]]].
  exists hass'. split; [exact Hu|]. split; [exact Hnone|].
  apply Hsame. reflexivity.
Defined.



(** The chiller's options name the sensor that exists, its data one
    that does not: setup goes through. *)
Lemma options_sensor_takes_precedence_witness :
  sensor_entity_id
    (@PIDDeviceHandle_init CONF_NAME CONF_SENSOR_ENTITY_ID Q chiller)
  = Some "sensor.temp" /\
  snd (async_setup_entry DOMAIN CONF_NAME CONF_SENSOR_ENTITY_ID running chiller)
  = Ok true.
Proof.
  destruct (options_sensor_takes_precedence DOMAIN CONF_NAME
              CONF_SENSOR_ENTITY_ID running chiller) as [H _].
  destruct (H "sensor.temp" eq_refl) as [Hs Hok].
  split; [exact Hs|].
  apply Hok. exists (mkState "65"). split; [reflexivity|].
  intros [E|E]; discriminate E.
Defined.

End LifecycleExamples.
